(** * Error decorator chains: a shallow embedding of package [errors]

    The Go package annotates an error with messages, captured call stacks
    and free-form details while keeping the original cause reachable.  This
    file embeds [errors.go], [custom.go], [lines.go] and [options.go] and
    proves properties of the constructors, of the short-form text, of the
    verb-driven [Format] methods, of [Cause], of [Lines] and of [Details].
    Of [lines.go] it takes the [Lines] whose interface [Liner] names the
    method [ErrorLine] that the nodes of [errors.go] have, and of the
    configuration the [Config] with the three separators that the
    methods read.

    Conventions of the embedding:
    - a Go [string] is a [string] (a sequence of bytes);
    - a [rune] and an [int] are [Z];
    - a value of interface type [error] is a term of the inductive [error];
      the nil interface value is the constructor [nil_error];
    - a method call returns [None] when it panics (a call through a nil
      interface) or when the value has no such method, and [Some] of its
      result otherwise;
    - what a method writes to its [fmt.State] is returned as a string;
    - the process-wide [globalOptions] is passed explicitly as a [Config]. *)

From Stdlib Require Import String Ascii List ZArith Bool Arith Lia.
From Equations Require Import Equations.
Import ListNotations.

Local Open Scope string_scope.

Set Implicit Arguments.

(** ** The option monad, used for calls that may panic *)

Definition bind {A B : Type} (c : option A) (k : A -> option B) : option B :=
  match c with
  | Some a => k a
  | None => None
  end.

Notation "x <- c ;; k" := (bind c (fun x => k))
  (at level 61, c at next level, right associativity).

Definition inspect {A : Type} (a : A) : {b : A | a = b} := exist _ a eq_refl.

(** ** options.go *)

Record Config : Type := mkConfig {
  FuncSep : string;
  StackSep : string;
  MsgSep : string
}.

(** The tab and the newline of the initial [globalOptions]. *)
Definition tab : string := String (ascii_of_nat 9) EmptyString.
Definition newline : string := String (ascii_of_nat 10) EmptyString.

Definition globalOptions : Config :=
  {| FuncSep := tab; StackSep := newline; MsgSep := " : " |}.

Definition Option : Type := Config -> Config.

Definition WithFuncSep (sep : string) : Option :=
  fun c => {| FuncSep := sep; StackSep := StackSep c; MsgSep := MsgSep c |}.

Definition WithStackSep (sep : string) : Option :=
  fun c => {| FuncSep := FuncSep c; StackSep := sep; MsgSep := MsgSep c |}.

Definition WithMsgSep (sep : string) : Option :=
  fun c => {| FuncSep := FuncSep c; StackSep := StackSep c; MsgSep := sep |}.

(** [SetOptions] applies the options in order to the shared configuration;
    the new configuration is the result. *)
Definition SetOptions (current : Config) (options : list Option) : Config :=
  fold_left (fun c option => option c) options current.

(** ** custom.go: the configured API object *)

Record ApiConfig : Type := mkApiConfig { CallerSkip : Z }.

Record errorsApi : Type := mkErrorsApi { cfg : ApiConfig }.

Definition NewErrorsApi (c : ApiConfig) : errorsApi := {| cfg := c |}.

Definition globalErrorsApi : errorsApi :=
  NewErrorsApi {| CallerSkip := 2 |}.

(** ** Format verbs *)

Definition rune : Type := Z.

Definition rune_of (c : ascii) : rune := Z.of_N (N_of_ascii c).

Definition verb_v : rune := Eval cbv in rune_of "v".
Definition verb_s : rune := Eval cbv in rune_of "s".
Definition verb_q : rune := Eval cbv in rune_of "q".

Definition nonempty (s : string) : bool := negb (s =? "").

Section Errors.

(** *** The host and the parts of the package that are not in these files

    [any] is the type of Go values of type [interface{}].
    [stack] is the captured stack of stack.go, [callstack] the frames of
    the calling goroutine at the moment a constructor runs, and
    [callers pcs skip] what [callers(skip)] captures there.
    [stack_Format opts st plus verb] is what the method [Format] of a
    captured stack writes for the given flag and verb under the
    configuration [opts].
    [Sprintf] is [fmt.Sprintf] and [Quote] is what the verb [%q] of the
    host prints for a string operand. *)

Variable any : Type.
Variable stack : Type.
Variable callstack : Type.
Variable callers : callstack -> Z -> stack.
Variable stack_Format : Config -> stack -> bool -> rune -> string.
Variable Sprintf : string -> list any -> string.
Variable Quote : string -> string.

(** *** errors.go: the values of type [error]

    [withStack] embeds a [withMessage] and a [*stack]; the embedded
    fields [cause] and [msg] are written next to the stack.  A cause is
    again an [error] and may be nil: the struct types allow it, only the
    constructors refuse it.

    [external text causer unwrapper] is an error value of another
    package.  [text] is what its [Error()] returns.  [causer] is
    [Some c] when its type has a method [Cause() error], which returns
    [c], and [None] when it has none; [unwrapper] is the same for
    [Unwrap() error].  An external error has neither [ErrorLine] nor
    [Format].  Values are finite trees, so no chain is cyclic. *)

#[warnings="-register-all"]
Inductive error : Type :=
| nil_error
| fundamental (msg : string) (st : stack)
| withStack (cause : error) (msg : string) (st : stack)
| withMessage (cause : error) (msg : string)
| withDetails (cause : error) (details : list any)
| external (text : string) (causer : option error) (unwrapper : option error).

(** [err == nil] *)
Definition is_nil (err : error) : bool :=
  match err with
  | nil_error => true
  | _ => false
  end.

Definition depth_opt (depth : error -> nat) (o : option error) : nat :=
  match o with
  | Some e => depth e
  | None => 0
  end.

(** The number of nodes of a value; the loops of [Cause] and [Lines]
    decrease it. *)
Fixpoint depth (err : error) : nat :=
  match err with
  | nil_error => 0
  | fundamental _ _ => 1
  | withStack cause _ _ => S (depth cause)
  | withMessage cause _ => S (depth cause)
  | withDetails cause _ => S (depth cause)
  | external _ c u => S (depth_opt depth c + depth_opt depth u)
  end.

(** *** The methods [Error] *)

Fixpoint Error (err : error) : option string :=
  match err with
  | nil_error => None
  | fundamental msg _ => Some msg
  | withStack cause msg _
  | withMessage cause msg =>
      if is_nil cause then Some msg
      else if msg =? "" then Error cause
      else (c <- Error cause ;; Some (msg ++ ": " ++ c))
  | withDetails cause _ => Error cause
  | external text _ _ => Some text
  end.

(** *** The type assertion [err.(causer)] and the methods [Cause] *)

Definition as_causer (err : error) : option error :=
  match err with
  | nil_error => None
  | fundamental _ _ => None
  | withStack cause _ _ => Some cause
  | withMessage cause _ => Some cause
  | withDetails cause _ => Some cause
  | external _ c _ => c
  end.

(** [Cause]: the loop follows [Cause()] while the value is not nil and
    has the method. *)
Equations? Cause (err : error) : error by wf (depth err) lt :=
  Cause nil_error := nil_error;
  Cause err with inspect (as_causer err) := {
    | exist _ (Some cause) _ := Cause cause
    | exist _ None _ := err }.
Proof.
  all: simpl; lia.
Qed.

(** *** The extended rendering and the methods [Format]

    [Fprintf_plus_v cause rendered] is [fmt.Fprintf(s, "%+v", cause)]:
    the host prints [<nil>] for a nil operand, calls [Format] with the
    verb [v] and the flag [+] when the operand has that method
    ([rendered] is its output), and prints [Error()] otherwise. *)

Definition Fprintf_plus_v (cause : error) (rendered : option string)
  : option string :=
  match cause with
  | nil_error => Some "<nil>"
  | external text _ _ => Some text
  | _ => rendered
  end.

(** [s] has the flag [+] when [plus] is true.  The switch on the verb
    has no default case: a verb that no case names writes nothing. *)
Fixpoint Format (opts : Config) (err : error) (plus : bool) (verb : rune)
  : option string :=
  match err with
  | nil_error => None
  | fundamental msg st =>
      if (verb =? verb_v)%Z && plus then
        Some ((if nonempty msg then msg ++ MsgSep opts else "")
              ++ stack_Format opts st plus verb)
      else if ((verb =? verb_v) || (verb =? verb_s))%Z then
        Some msg
      else if (verb =? verb_q)%Z then
        Some (Quote msg)
      else Some ""
  | withStack cause msg st =>
      if (verb =? verb_v)%Z && plus then
        c <- (if is_nil cause then Some ""
              else (r <- Fprintf_plus_v cause (Format opts cause true verb_v) ;;
                    Some (r ++ Sprintf (StackSep opts) []))) ;;
        Some (c
              ++ (if nonempty msg
                  then msg ++ Sprintf (StackSep opts) [] else "")
              ++ stack_Format opts st plus verb)
      else if ((verb =? verb_v) || (verb =? verb_s))%Z then
        Error err
      else if (verb =? verb_q)%Z then
        (t <- Error err ;; Some (Quote t))
      else Some ""
  | withMessage cause msg =>
      if (verb =? verb_v)%Z && plus then
        c <- (if is_nil cause then Some ""
              else (r <- Fprintf_plus_v cause (Format opts cause true verb_v) ;;
                    Some (r ++ Sprintf (StackSep opts) []))) ;;
        Some (c ++ msg)
      else if ((verb =? verb_v) || (verb =? verb_s) || (verb =? verb_q))%Z then
        Error err
      else Some ""
  | withDetails cause _ =>
      if (verb =? verb_v)%Z && plus then
        r <- Fprintf_plus_v cause (Format opts cause true verb_v) ;;
        Some (r ++ Sprintf (StackSep opts) [])
      else if ((verb =? verb_v) || (verb =? verb_s) || (verb =? verb_q))%Z then
        Error err
      else Some ""
  | external _ _ _ => None
  end.

(** *** The methods [ErrorLine]

    [as_Liner err] is the case [Liner] of the type switch of [Lines]:
    [Some f] when the value has the method [ErrorLine], [f] being that
    method.  [fmt.Sprintf("%+v", st)] of a captured stack is its
    [Format] with the verb [v] and the flag [+]. *)

Definition fundamental_ErrorLine (opts : Config) (msg : string) (st : stack)
  (stack : bool) : string :=
  (if nonempty msg then msg else "")
  ++ (if nonempty msg && stack then MsgSep opts else "")
  ++ (if stack then stack_Format opts st true verb_v else "").

Definition withStack_ErrorLine (opts : Config) (msg : string) (st : stack)
  (stack : bool) : string :=
  if negb stack then msg
  else (if nonempty msg then msg ++ MsgSep opts else "")
       ++ stack_Format opts st true verb_v.

Definition withMessage_ErrorLine (msg : string) (stack : bool) : string :=
  msg.

Definition withDetails_ErrorLine (stack : bool) : string := "".

Definition as_Liner (opts : Config) (err : error) : option (bool -> string) :=
  match err with
  | nil_error => None
  | fundamental msg st => Some (fundamental_ErrorLine opts msg st)
  | withStack _ msg st => Some (withStack_ErrorLine opts msg st)
  | withMessage _ msg => Some (withMessage_ErrorLine msg)
  | withDetails _ _ => Some withDetails_ErrorLine
  | external _ _ _ => None
  end.

Definition ErrorLine (opts : Config) (err : error) (stack : bool)
  : option string :=
  f <- as_Liner opts err ;; Some (f stack).

(** *** lines.go *)

(** Modelled from the spec: the package-level [Unwrap] (go113.go, which
    forwards to the host's [errors.Unwrap]) is missing.  It is the
    generic unwrap step: the result of the value's method [Unwrap() error]
    when it has one, nil otherwise.  The methods themselves are in
    errors.go: [withMessage] and [withDetails] return their cause,
    [withStack] has the method of the [withMessage] it embeds, and
    [fundamental] has none. *)
Definition Unwrap (err : error) : error :=
  match err with
  | nil_error => nil_error
  | fundamental _ _ => nil_error
  | withStack cause _ _ => cause
  | withMessage cause _ => cause
  | withDetails cause _ => cause
  | external _ _ (Some u) => u
  | external _ _ None => nil_error
  end.

(** The type switch of [Lines]: [ErrorLine(stack)] for a [Liner],
    [Error()] for any other value. *)
Definition line_of (opts : Config) (err : error) (stack : bool)
  : option string :=
  match as_Liner opts err with
  | Some ErrorLine => Some (ErrorLine stack)
  | None => Error err
  end.

(** The body of the loop: the line is appended when [len(line) > 0]. *)
Definition append_line (errors : list string) (line : string) : list string :=
  if (0 <? String.length line)%nat then errors ++ [line] else errors.

(** The loop of [Lines], from the value [err] with the slice [errors]. *)
Equations? Lines_loop (opts : Config) (err : error) (stack : bool)
  (errors : list string) : option (list string) by wf (depth err) lt :=
  Lines_loop opts err stack errors with inspect (is_nil err) := {
    | exist _ true _ := Some errors
    | exist _ false _ :=
        match line_of opts err stack with
        | Some line =>
            Lines_loop opts (Unwrap err) stack (append_line errors line)
        | None => None
        end }.
Proof.
  destruct err as [| | | | |t c [u|]]; simpl in *; try discriminate; lia.
Qed.

Definition Lines (opts : Config) (err : error) (stack : bool)
  : option (list string) :=
  Lines_loop opts err stack [].

(** *** custom.go: the constructors

    [pcs] is the call stack of the goroutine when the constructor runs. *)

Definition New (e : errorsApi) (pcs : callstack) (message : string) : error :=
  fundamental message (callers pcs (CallerSkip (cfg e))).

Definition Errorf (e : errorsApi) (pcs : callstack) (format : string)
  (args : list any) : error :=
  fundamental (Sprintf format args) (callers pcs (CallerSkip (cfg e))).

Definition WithStack (e : errorsApi) (pcs : callstack) (err : error) : error :=
  if is_nil err then nil_error
  else withStack err "" (callers pcs (CallerSkip (cfg e))).

Definition Wrap (e : errorsApi) (pcs : callstack) (err : error)
  (message : string) : error :=
  if is_nil err then nil_error
  else withStack err message (callers pcs (CallerSkip (cfg e))).

Definition Wrapf (e : errorsApi) (pcs : callstack) (err : error)
  (format : string) (args : list any) : error :=
  if is_nil err then nil_error
  else withStack err (Sprintf format args) (callers pcs (CallerSkip (cfg e))).

Definition WithMessage (e : errorsApi) (err : error) (message : string)
  : error :=
  if is_nil err then nil_error
  else withMessage err message.

Definition WithMessagef (e : errorsApi) (err : error) (format : string)
  (args : list any) : error :=
  if is_nil err then nil_error
  else withMessage err (Sprintf format args).

Definition WithDetails (e : errorsApi) (err : error) (details : list any)
  : error :=
  if is_nil err then nil_error
  else withDetails err details.

(** The type assertion of [err] to a pointer to [withDetails]; the nil
    slice is the empty list. *)
Definition Details (e : errorsApi) (err : error) : list any * bool :=
  match err with
  | withDetails _ details => (details, true)
  | _ => ([], false)
  end.

(** *** Predicates and descriptions used by the statements *)

(** The type test behind [Details]. *)
Definition is_withDetails (err : error) : bool :=
  match err with
  | withDetails _ _ => true
  | _ => false
  end.

(** The nodes of this package. *)
Definition is_node (err : error) : bool :=
  match err with
  | fundamental _ _ | withStack _ _ _ | withMessage _ _ | withDetails _ _ =>
      true
  | nil_error | external _ _ _ => false
  end.

(** Two values that differ at most in the stack their outermost node
    captured. *)
Definition equal_up_to_stack (a b : error) : Prop :=
  match a, b with
  | fundamental m _, fundamental m' _ => m = m'
  | withStack c m _, withStack c' m' _ => c = c' /\ m = m'
  | _, _ => a = b
  end.

(** The formatted constructors as the specification describes
    them: the plain constructor applied to the string that [fmt.Sprintf]
    returns. *)
Definition Errorf_spec (e : errorsApi) (pcs : callstack) (format : string)
  (args : list any) : error :=
  New e pcs (Sprintf format args).

Definition Wrapf_spec (e : errorsApi) (pcs : callstack) (err : error)
  (format : string) (args : list any) : error :=
  Wrap e pcs err (Sprintf format args).

Definition WithMessagef_spec (e : errorsApi) (err : error) (format : string)
  (args : list any) : error :=
  WithMessage e err (Sprintf format args).

(** The values a client can hold: nil, errors of other packages, and
    what the constructors return on such values. *)
Inductive constructed : error -> Prop :=
| constructed_nil : constructed nil_error
| constructed_external (text : string) (c u : option error) :
    constructed (external text c u)
| constructed_New (e : errorsApi) (pcs : callstack) (message : string) :
    constructed (New e pcs message)
| constructed_Errorf (e : errorsApi) (pcs : callstack) (format : string)
    (args : list any) :
    constructed (Errorf e pcs format args)
| constructed_WithStack (e : errorsApi) (pcs : callstack) (err : error) :
    constructed err -> constructed (WithStack e pcs err)
| constructed_Wrap (e : errorsApi) (pcs : callstack) (err : error)
    (message : string) :
    constructed err -> constructed (Wrap e pcs err message)
| constructed_Wrapf (e : errorsApi) (pcs : callstack) (err : error)
    (format : string) (args : list any) :
    constructed err -> constructed (Wrapf e pcs err format args)
| constructed_WithMessage (e : errorsApi) (err : error) (message : string) :
    constructed err -> constructed (WithMessage e err message)
| constructed_WithMessagef (e : errorsApi) (err : error) (format : string)
    (args : list any) :
    constructed err -> constructed (WithMessagef e err format args)
| constructed_WithDetails (e : errorsApi) (err : error)
    (details : list any) :
    constructed err -> constructed (WithDetails e err details).

(** Every node of this package along the chain that has a cause field
    holds a cause that is not nil. *)
Fixpoint causes_present (err : error) : bool :=
  match err with
  | nil_error => true
  | fundamental _ _ => true
  | withStack cause _ _ => negb (is_nil cause) && causes_present cause
  | withMessage cause _ => negb (is_nil cause) && causes_present cause
  | withDetails cause _ => negb (is_nil cause) && causes_present cause
  | external _ _ _ => true
  end.

(** The lines of a chain without stacks, by recursion on the value: the
    text of each value along the [Unwrap] chain that is not empty. *)
Fixpoint messages (err : error) : list string :=
  match err with
  | nil_error => []
  | fundamental msg _ => append_line [] msg
  | withStack cause msg _ => append_line [] msg ++ messages cause
  | withMessage cause msg => append_line [] msg ++ messages cause
  | withDetails cause _ => messages cause
  | external text _ (Some u) => append_line [] text ++ messages u
  | external text _ None => append_line [] text
  end.

(** A chain of nodes of this package, each with a cause, that ends in a
    terminal node or in an error of another package without [Cause] and
    [Unwrap], the text of that last value not being empty. *)
Fixpoint plain_chain (err : error) : bool :=
  match err with
  | nil_error => false
  | fundamental msg _ => nonempty msg
  | withStack cause _ _ => plain_chain cause
  | withMessage cause _ => plain_chain cause
  | withDetails cause _ => plain_chain cause
  | external text None None => nonempty text
  | external _ _ _ => false
  end.

(** The nodes that hold a cause. *)
Definition is_wrapper (err : error) : bool :=
  match err with
  | withStack _ _ _ | withMessage _ _ | withDetails _ _ => true
  | _ => false
  end.

(** What a constructor of the wrap family owes its caller: nil for a nil
    cause, and for any other cause a node of this package, so not nil and
    not the cause itself, whose cause field holds that cause. *)
Definition nil_or_node_around (cause result : error) : Prop :=
  if is_nil cause then result = nil_error
  else is_nil result = false
       /\ is_node result = true
       /\ as_causer result = Some cause.

(** The number of values that the loop of [Lines] visits: the values
    along the [Unwrap] chain up to nil. *)
Fixpoint chain_length (err : error) : nat :=
  match err with
  | nil_error => 0
  | fundamental _ _ => 1
  | withStack cause _ _ => S (chain_length cause)
  | withMessage cause _ => S (chain_length cause)
  | withDetails cause _ => S (chain_length cause)
  | external _ _ (Some u) => S (chain_length u)
  | external _ _ None => 1
  end.

(** ** Root cause *)

Lemma Cause_not_causer (err : error) :
  as_causer err = None -> Cause err = err.
Proof.
  intros H. funelim (Cause err); try reflexivity; simpl in *; congruence.
Qed.

Lemma Cause_causer (err cause : error) :
  as_causer err = Some cause -> Cause err = Cause cause.
Proof.
  intros H. funelim (Cause err); simpl in *; try congruence.
Qed.

Lemma Cause_stops (err : error) : as_causer (Cause err) = None.
Proof.
  funelim (Cause err); simpl in *; auto.
Qed.

(** C2: the root-cause operation is idempotent on its own result, for
    every error value: nil, a node of this package or an error of
    another package, with or without a method [Cause]. *)
Theorem Cause_idempotent (err : error) : Cause (Cause err) = Cause err.
Proof.
  apply Cause_not_causer, Cause_stops.
Qed.

(** ** The constructors *)

Lemma is_nil_true (err : error) : is_nil err = true <-> err = nil_error.
Proof.
  destruct err; simpl; split; intros H; try reflexivity; discriminate.
Qed.

(** C1: each constructor of the wrap family returns nil for a nil cause,
    never a node around a missing cause, and for every cause that is not
    nil it returns a node of this package: a value that is not nil, that
    is one of the node types, and whose cause is the given one. *)
Theorem wrap_family_nil_propagation (e : errorsApi) (pcs : callstack)
  (err : error) (message format : string) (args details : list any) :
  nil_or_node_around err (WithStack e pcs err)
  /\ nil_or_node_around err (Wrap e pcs err message)
  /\ nil_or_node_around err (Wrapf e pcs err format args)
  /\ nil_or_node_around err (WithMessage e err message)
  /\ nil_or_node_around err (WithMessagef e err format args)
  /\ nil_or_node_around err (WithDetails e err details).
Proof.
  unfold nil_or_node_around,
    WithStack, Wrap, Wrapf, WithMessage, WithMessagef, WithDetails.
  destruct (is_nil err) eqn:Hnil; simpl; repeat split.
Qed.

(** The result of a constructor of the wrap family is nil exactly when
    its cause is. *)
Lemma wrap_family_is_nil (e : errorsApi) (pcs : callstack)
  (err : error) (message format : string) (args details : list any) :
  is_nil (WithStack e pcs err) = is_nil err
  /\ is_nil (Wrap e pcs err message) = is_nil err
  /\ is_nil (Wrapf e pcs err format args) = is_nil err
  /\ is_nil (WithMessage e err message) = is_nil err
  /\ is_nil (WithMessagef e err format args) = is_nil err
  /\ is_nil (WithDetails e err details) = is_nil err.
Proof.
  unfold WithStack, Wrap, Wrapf, WithMessage, WithMessagef, WithDetails.
  destruct (is_nil err) eqn:Hnil; simpl; repeat split.
Qed.

(** The node built for a cause that is not nil holds that cause. *)
Lemma wrap_family_cause (e : errorsApi) (pcs : callstack)
  (err : error) (message format : string) (args details : list any) :
  is_nil err = false ->
  as_causer (WithStack e pcs err) = Some err
  /\ as_causer (Wrap e pcs err message) = Some err
  /\ as_causer (Wrapf e pcs err format args) = Some err
  /\ as_causer (WithMessage e err message) = Some err
  /\ as_causer (WithMessagef e err format args) = Some err
  /\ as_causer (WithDetails e err details) = Some err.
Proof.
  intros Hnil.
  unfold WithStack, Wrap, Wrapf, WithMessage, WithMessagef, WithDetails.
  rewrite Hnil. simpl. repeat split.
Qed.

(** C9: a formatted constructor builds the node its plain counterpart
    builds from the formatted string.  Called at the same place the two
    build the same value; called at two places [pcs] and [pcs'] the
    values differ at most in the captured stack, which both take with
    the skip depth of the configuration. *)
Theorem formatted_constructors_refine (e : errorsApi) (pcs pcs' : callstack)
  (err : error) (format : string) (args : list any) :
  (Errorf e pcs format args = Errorf_spec e pcs format args
   /\ Wrapf e pcs err format args = Wrapf_spec e pcs err format args
   /\ WithMessagef e err format args = WithMessagef_spec e err format args)
  /\ (equal_up_to_stack (Errorf e pcs format args)
        (Errorf_spec e pcs' format args)
      /\ equal_up_to_stack (Wrapf e pcs err format args)
           (Wrapf_spec e pcs' err format args)).
Proof.
  split; [repeat split|].
  unfold Errorf, Errorf_spec, New, Wrapf, Wrapf_spec, Wrap.
  split; [reflexivity|].
  destruct (is_nil err); simpl; auto.
Qed.

(** ** The short form *)

Lemma withMessage_Error_joined (cause : error) (msg c : string) :
  is_nil cause = false -> Error cause = Some c ->
  Error (withMessage cause msg)
  = Some (if msg =? "" then c else msg ++ ": " ++ c).
Proof.
  intros Hnil Hc. simpl. rewrite Hnil, Hc.
  destruct (msg =? ""); reflexivity.
Qed.

Lemma withStack_Error_joined (cause : error) (msg c : string) (st : stack) :
  is_nil cause = false -> Error cause = Some c ->
  Error (withStack cause msg st)
  = Some (if msg =? "" then c else msg ++ ": " ++ c).
Proof.
  intros Hnil Hc. simpl. rewrite Hnil, Hc.
  destruct (msg =? ""); reflexivity.
Qed.

(** C3: the short text of [Wrap(cause, m)] is [m], the joiner and the
    short text of the cause, when the cause is not nil, its short text
    is not empty and [m] is not empty. *)
Theorem Wrap_short_text (e : errorsApi) (pcs : callstack) (cause : error)
  (m c : string) :
  is_nil cause = false -> Error cause = Some c -> c <> "" -> m <> "" ->
  Error (Wrap e pcs cause m) = Some (m ++ ": " ++ c).
Proof.
  intros Hnil Hc _ Hm. unfold Wrap. rewrite Hnil.
  rewrite (@withStack_Error_joined cause m c _ Hnil Hc).
  apply String.eqb_neq in Hm. rewrite Hm. reflexivity.
Qed.

(** C6, as amended: the short text of a node joins its own message and
    the short text of its cause with the joiner.  The joiner is left
    out when the own message is empty, the result being the short text
    of the cause, and when the node has no cause, the result being the
    own message.  With an own message that is not empty the result is
    the message, the joiner and the short text of the cause, also when
    the latter is empty.  A terminal node gives its message and a
    details node the short text of its cause. *)
Theorem short_text_join (cause : error) (msg c : string) (st : stack)
  (details : list any) :
  Error (fundamental msg st) = Some msg
  /\ Error (withMessage nil_error msg) = Some msg
  /\ Error (withStack nil_error msg st) = Some msg
  /\ Error (withDetails cause details) = Error cause
  /\ (is_nil cause = false -> Error cause = Some c ->
      Error (withMessage cause "") = Some c
      /\ Error (withStack cause "" st) = Some c
      /\ (msg <> "" ->
          Error (withMessage cause msg) = Some (msg ++ ": " ++ c)
          /\ Error (withStack cause msg st) = Some (msg ++ ": " ++ c))).
Proof.
  repeat (split; [reflexivity|]).
  intros Hnil Hc.
  rewrite !(@withMessage_Error_joined cause _ c Hnil Hc).
  rewrite !(@withStack_Error_joined cause _ c st Hnil Hc).
  repeat (split; [reflexivity|]).
  intros Hm. apply String.eqb_neq in Hm. rewrite Hm. split; reflexivity.
Qed.

(** ** Details *)

(** C5: [Details] returns the stored values and true when the value is
    itself a details node, and the nil slice and false on every other
    value, a chain with a details node further in included: the chain
    is not searched. *)
Theorem Details_only_outermost (e : errorsApi) (pcs : callstack)
  (err cause : error) (details : list any) (message : string) :
  Details e (withDetails cause details) = (details, true)
  /\ snd (Details e err) = is_withDetails err
  /\ (is_withDetails err = false -> Details e err = ([], false))
  /\ Details e (WithMessage e (WithDetails e cause details) message)
     = ([], false)
  /\ Details e (Wrap e pcs (WithDetails e cause details) message)
     = ([], false)
  /\ Details e (WithStack e pcs (WithDetails e cause details))
     = ([], false).
Proof.
  split; [reflexivity|].
  split; [destruct err; reflexivity|].
  split; [destruct err; simpl; intros H; try reflexivity; discriminate|].
  unfold WithMessage, Wrap, WithStack, WithDetails.
  destruct (is_nil cause); simpl; repeat split.
Qed.

(** ** Nodes built by the constructors *)

Lemma constructed_causes_present (err : error) :
  constructed err -> causes_present err = true.
Proof.
  induction 1; try reflexivity;
    unfold WithStack, Wrap, Wrapf, WithMessage, WithMessagef, WithDetails;
    destruct (is_nil err) eqn:Hnil; simpl; try reflexivity;
    rewrite Hnil; simpl; assumption.
Qed.

Lemma causes_present_Error (err : error) :
  causes_present err = true -> is_nil err = false ->
  exists text, Error err = Some text.
Proof.
  induction err as [|msg st|cause IH msg st|cause IH msg|cause IH details|];
    simpl; intros Hp Hnil; try discriminate; eauto.
  - apply andb_true_iff in Hp. destruct Hp as [Hc Hp].
    apply negb_true_iff in Hc. rewrite Hc.
    destruct (IH Hp Hc) as [text Htext]. rewrite Htext.
    destruct (msg =? ""); simpl; eauto.
  - apply andb_true_iff in Hp. destruct Hp as [Hc Hp].
    apply negb_true_iff in Hc. rewrite Hc.
    destruct (IH Hp Hc) as [text Htext]. rewrite Htext.
    destruct (msg =? ""); simpl; eauto.
  - apply andb_true_iff in Hp. destruct Hp as [Hc Hp].
    apply negb_true_iff in Hc. eauto.
Qed.

(** C10: a value built by the constructors holds a cause that is not nil
    in every node that has a cause field, and [Error()] of such a value,
    when it is not nil itself, returns: the call of [Error()] on the
    cause in the details node is never a call through nil. *)
Theorem constructed_never_nil_cause (err : error) :
  constructed err ->
  causes_present err = true
  /\ (is_nil err = false -> exists text, Error err = Some text)
  /\ (forall cause details,
        err = withDetails cause details ->
        is_nil cause = false /\ exists text, Error cause = Some text).
Proof.
  intros H. pose proof (constructed_causes_present H) as Hp.
  split; [assumption|]. split.
  - apply causes_present_Error; assumption.
  - intros cause details ->. simpl in Hp.
    apply andb_true_iff in Hp. destruct Hp as [Hc Hp].
    apply negb_true_iff in Hc. split; [assumption|].
    apply causes_present_Error; assumption.
Qed.

(** ** Lines *)

Lemma Lines_loop_nil (opts : Config) (with_stack : bool) (errors : list string) :
  Lines_loop opts nil_error with_stack errors = Some errors.
Proof.
  simp Lines_loop. reflexivity.
Qed.

Lemma Lines_loop_step (opts : Config) (err : error) (with_stack : bool)
  (errors : list string) (line : string) :
  is_nil err = false -> line_of opts err with_stack = Some line ->
  Lines_loop opts err with_stack errors
  = Lines_loop opts (Unwrap err) with_stack (append_line errors line).
Proof.
  intros Hnil Hline. funelim (Lines_loop opts err with_stack errors).
  - congruence.
  - rewrite Hline. reflexivity.
Qed.

Lemma line_of_total (opts : Config) (err : error) (with_stack : bool) :
  is_nil err = false -> exists line, line_of opts err with_stack = Some line.
Proof.
  destruct err; simpl; intros H; try discriminate; unfold line_of; simpl; eauto.
Qed.

(** [Lines] returns on every value. *)
Lemma Lines_loop_total (opts : Config) (err : error) (with_stack : bool)
  (errors : list string) :
  exists lines, Lines_loop opts err with_stack errors = Some lines.
Proof.
  funelim (Lines_loop opts err with_stack errors).
  - eauto.
  - match goal with
    | E : is_nil ?x = false |- context [line_of _ ?x ?b] =>
        destruct (@line_of_total opts x b E) as [line Hline]
    end.
    rewrite Hline. auto.
Qed.

(** C4: [Lines(WithMessage(WithStack(New("foo")), "bar"), false)] is
    [["bar"; "foo"]].  Without stacks the line of the node that
    [WithStack] built is empty, and an empty line is not appended. *)
Theorem Lines_message_stack_new (opts : Config) (e : errorsApi)
  (pcs pcs' : callstack) :
  Lines opts (WithMessage e (WithStack e pcs (New e pcs' "foo")) "bar") false
  = Some ["bar"; "foo"]
  /\ ErrorLine opts (WithStack e pcs (New e pcs' "foo")) false = Some ""
  /\ (forall errors, append_line errors "" = errors).
Proof.
  split; [|split; reflexivity].
  unfold Lines, WithMessage, WithStack, New. simpl.
  rewrite Lines_loop_step with (line := "bar") by reflexivity. simpl.
  rewrite Lines_loop_step with (line := "") by reflexivity. simpl.
  rewrite Lines_loop_step with (line := "foo") by reflexivity. simpl.
  apply Lines_loop_nil.
Qed.

(** ** Format *)

(** X17: under [%s], and under [%v] without the flag, every node writes
    its short text. *)
Lemma Format_short_text (opts : Config) (err : error) (plus : bool) :
  is_node err = true ->
  Format opts err plus verb_s = Error err
  /\ Format opts err false verb_v = Error err.
Proof.
  destruct err; simpl; intros H; try discriminate; split; reflexivity.
Qed.

(** Under [%q] the terminal node and the stack node quote their short
    text; the message node and the details node write it as under [%s]. *)
Lemma Format_q (opts : Config) (cause : error) (msg : string) (st : stack)
  (details : list any) (plus : bool) :
  Format opts (fundamental msg st) plus verb_q = Some (Quote msg)
  /\ Format opts (withStack cause msg st) plus verb_q
     = (t <- Error (withStack cause msg st) ;; Some (Quote t))
  /\ Format opts (withMessage cause msg) plus verb_q
     = Error (withMessage cause msg)
  /\ Format opts (withDetails cause details) plus verb_q
     = Error (withDetails cause details).
Proof.
  repeat split.
Qed.

(** C7, on the code: under the verb [q] a message node and a details
    node write their short text as it is, without quotation marks, while
    a terminal node and a stack node write it quoted. *)
Theorem Format_q_message_not_quoted (opts : Config) (e : errorsApi)
  (pcs : callstack) (plus : bool) (details : list any) :
  Format opts (WithMessage e (New e pcs "foo") "bar") plus verb_q
  = Some "bar: foo"
  /\ Format opts (WithDetails e (New e pcs "foo") details) plus verb_q
     = Some "foo"
  /\ Format opts (New e pcs "foo") plus verb_q = Some (Quote "foo")
  /\ Format opts (Wrap e pcs (New e pcs "foo") "bar") plus verb_q
     = Some (Quote "bar: foo").
Proof.
  repeat split.
Qed.

(** C8, as amended: under a verb other than [s], [v] and [q] the
    [Format] of every node of this package returns and writes
    nothing. *)
Theorem Format_other_verb_writes_nothing (opts : Config) (err : error)
  (plus : bool) (verb : rune) :
  is_node err = true ->
  verb <> verb_s -> verb <> verb_v -> verb <> verb_q ->
  Format opts err plus verb = Some "".
Proof.
  intros Hnode Hs Hv Hq.
  apply Z.eqb_neq in Hs, Hv, Hq.
  destruct err; try discriminate; simpl; rewrite Hs, Hv, Hq; reflexivity.
Qed.

(** ** Further properties of [Cause] *)

(** X1: what [Cause] returns is nil or a value without the method
    [Cause]: never a node of this package that holds a cause. *)
Theorem Cause_result_terminal (err : error) :
  as_causer (Cause err) = None /\ is_wrapper (Cause err) = false.
Proof.
  pose proof (Cause_stops err) as H. split; [exact H|].
  destruct (Cause err); simpl in *; try reflexivity; discriminate.
Qed.

(** X2: wrapping does not change the root cause: [Cause] of what a
    constructor of the wrap family returns is [Cause] of its argument,
    nil included. *)
Theorem Cause_through_wrap (e : errorsApi) (pcs : callstack) (err : error)
  (message format : string) (args details : list any) :
  Cause (WithStack e pcs err) = Cause err
  /\ Cause (Wrap e pcs err message) = Cause err
  /\ Cause (Wrapf e pcs err format args) = Cause err
  /\ Cause (WithMessage e err message) = Cause err
  /\ Cause (WithMessagef e err format args) = Cause err
  /\ Cause (WithDetails e err details) = Cause err.
Proof.
  unfold WithStack, Wrap, Wrapf, WithMessage, WithMessagef, WithDetails.
  destruct (is_nil err) eqn:Hnil.
  - apply is_nil_true in Hnil. subst err. repeat split.
  - repeat split; apply Cause_causer; reflexivity.
Qed.

(** ** Further properties of the short form *)

Lemma plain_chain_not_nil (err : error) :
  plain_chain err = true -> is_nil err = false.
Proof.
  destruct err; simpl; intros H; try reflexivity; discriminate.
Qed.

(** X3: [WithStack] and [WithDetails] leave the short text as it is, and
    [Wrap] gives the short text of [WithMessage]; on nil all of them
    panic alike, the result being nil. *)
Theorem short_text_through_wrap (e : errorsApi) (pcs : callstack)
  (err : error) (message : string) (details : list any) :
  Error (WithStack e pcs err) = Error err
  /\ Error (WithDetails e err details) = Error err
  /\ Error (Wrap e pcs err message) = Error (WithMessage e err message).
Proof.
  unfold WithStack, WithDetails, Wrap, WithMessage.
  destruct (is_nil err) eqn:Hnil.
  - apply is_nil_true in Hnil. subst err. repeat split.
  - simpl. rewrite Hnil. repeat split.
Qed.

(** ** Further properties of [Details] *)

(** X4: [Details] gives back what [WithDetails] stored, in order, when
    the cause was not nil, and nothing when it was. *)
Theorem Details_WithDetails (e e' : errorsApi) (err : error)
  (details : list any) :
  Details e (WithDetails e' err details)
  = if is_nil err then ([], false) else (details, true).
Proof.
  unfold WithDetails. destruct (is_nil err); reflexivity.
Qed.

(** ** Further properties of [Lines] *)

Lemma Unwrap_depth (err : error) :
  is_nil err = false -> depth (Unwrap err) < depth err.
Proof.
  destruct err as [| | | | |t c [u|]]; simpl; intros H;
    try discriminate; lia.
Qed.

(** Induction along the [Unwrap] chain. *)
Lemma unwrap_ind (P : error -> Prop) :
  P nil_error ->
  (forall err, is_nil err = false -> P (Unwrap err) -> P err) ->
  forall err, P err.
Proof.
  intros Hnil Hstep err.
  remember (depth err) as n eqn:Hn. revert err Hn.
  induction n as [n IH] using lt_wf_ind. intros err Hn.
  destruct (is_nil err) eqn:E.
  - apply is_nil_true in E. subst err. exact Hnil.
  - apply Hstep; [exact E|].
    apply (IH (depth (Unwrap err))); [|reflexivity].
    subst n. apply Unwrap_depth. exact E.
Qed.

Lemma append_line_app (errors : list string) (line : string) :
  append_line errors line = (errors ++ append_line [] line)%list.
Proof.
  unfold append_line. destruct (0 <? String.length line)%nat.
  - reflexivity.
  - symmetry. apply app_nil_r.
Qed.


Lemma append_line_empty (errors : list string) : append_line errors "" = errors.
Proof. reflexivity. Qed.

Lemma append_line_text (errors : list string) (line : string) :
  nonempty line = true -> append_line errors line = (errors ++ [line])%list.
Proof.
  destruct line; simpl; intros H; [discriminate | reflexivity].
Qed.

Lemma Lines_loop_acc (opts : Config) (with_stack : bool) (err : error) :
  forall errors,
    Lines_loop opts err with_stack errors
    = (lines <- Lines opts err with_stack ;; Some (errors ++ lines)%list).
Proof.
  unfold Lines. induction err as [|err Hnil IH] using unwrap_ind; intros errors.
  - rewrite !Lines_loop_nil. simpl. rewrite app_nil_r. reflexivity.
  - destruct (line_of_total opts err with_stack Hnil) as [line Hline].
    rewrite (Lines_loop_step opts err with_stack errors Hnil Hline).
    rewrite (Lines_loop_step opts err with_stack [] Hnil Hline).
    rewrite (IH (append_line errors line)), (IH (append_line [] line)).
    destruct (Lines_loop opts (Unwrap err) with_stack []) as [rest|]; simpl;
      [|reflexivity].
    rewrite (append_line_app errors line), <- app_assoc. reflexivity.
Qed.

(** X5: the order of [Lines]: the line of the value itself comes first,
    when it is not empty, and the lines of what [Unwrap] returns follow. *)
Theorem Lines_outermost_first (opts : Config) (err : error)
  (with_stack : bool) :
  is_nil err = false ->
  exists line rest,
    line_of opts err with_stack = Some line
    /\ Lines opts (Unwrap err) with_stack = Some rest
    /\ Lines opts err with_stack = Some (append_line [] line ++ rest)%list.
Proof.
  intros Hnil.
  destruct (line_of_total opts err with_stack Hnil) as [line Hline].
  destruct (Lines_loop_total opts (Unwrap err) with_stack []) as [rest Hrest].
  exists line, rest. split; [exact Hline|]. split; [exact Hrest|].
  unfold Lines.
  rewrite (Lines_loop_step opts err with_stack [] Hnil Hline).
  rewrite Lines_loop_acc. unfold Lines. rewrite Hrest. reflexivity.
Qed.



Lemma text_or_empty (msg : string) :
  (if nonempty msg then msg else "") = msg.
Proof. destruct msg; reflexivity. Qed.

Lemma append_empty_r (s : string) : s ++ "" = s.
Proof. induction s as [|a s IH]; simpl; [|rewrite IH]; reflexivity. Qed.

Lemma fundamental_ErrorLine_no_stack (opts : Config) (msg : string)
  (st : stack) :
  fundamental_ErrorLine opts msg st false = msg.
Proof.
  unfold fundamental_ErrorLine.
  rewrite andb_false_r, text_or_empty. simpl. apply append_empty_r.
Qed.

Lemma messages_unfold (opts : Config) (err : error) (line : string) :
  line_of opts err false = Some line ->
  messages err = (append_line [] line ++ messages (Unwrap err))%list.
Proof.
  unfold line_of.
  destruct err as [|msg st|cause msg st|cause msg|cause details|text c [u|]];
    simpl; intros Hline; inversion Hline; subst line;
    rewrite ?fundamental_ErrorLine_no_stack, ?app_nil_r; reflexivity.
Qed.

(** Without stacks [Lines] is [messages]. *)
Lemma Lines_no_stack (opts : Config) (err : error) :
  Lines opts err false = Some (messages err).
Proof.
  induction err as [|err Hnil IH] using unwrap_ind.
  - apply Lines_loop_nil.
  - destruct (Lines_outermost_first opts err false Hnil)
      as (line & rest & Hline & Hrest & Hlines).
    rewrite Hlines. rewrite IH in Hrest. inversion Hrest; subst rest.
    rewrite (messages_unfold opts err Hline). reflexivity.
Qed.

Lemma concat_cons_nonempty (sep line : string) (rest : list string) :
  rest <> [] -> String.concat sep (line :: rest) = line ++ sep ++ String.concat sep rest.
Proof.
  destruct rest; [congruence | reflexivity].
Qed.

Lemma last_app_nonempty (l rest : list string) (d : string) :
  rest <> [] -> last (l ++ rest)%list d = last rest d.
Proof.
  intros H. induction l as [|x l IH]; [reflexivity|].
  simpl. destruct (l ++ rest)%list eqn:E; [|exact IH].
  apply app_eq_nil in E. destruct E. congruence.
Qed.

Lemma wrapper_messages (cause : error) (msg : string) :
  messages cause <> [] ->
  Error cause = Some (String.concat ": " (messages cause)) ->
  is_nil cause = false ->
  (if msg =? "" then Error cause
   else (t <- Error cause ;; Some (msg ++ ": " ++ t)))
  = Some (String.concat ": " (append_line [] msg ++ messages cause)%list).
Proof.
  intros Hne Herr Hnil. destruct msg as [|a msg].
  - simpl. exact Herr.
  - rewrite Herr. simpl bind.
    change (append_line [] (String a msg) ++ messages cause)%list
      with (String a msg :: messages cause).
    rewrite concat_cons_nonempty by exact Hne. reflexivity.
Qed.

(** X7: the short text is the lines without stacks joined by the joiner,
    on a chain of nodes that ends in a terminal node or a plain error of
    another package whose text is not empty. *)
Theorem short_text_joins_lines (opts : Config) (err : error) :
  plain_chain err = true ->
  exists lines,
    Lines opts err false = Some lines
    /\ lines <> []
    /\ Error err = Some (String.concat ": " lines).
Proof.
  intros Hplain. exists (messages err). split; [apply Lines_no_stack|].
  induction err as [|msg st|cause IH msg st|cause IH msg|cause IH details
                   |text c u]; simpl in *; try discriminate.
  - rewrite (append_line_text [] msg Hplain). simpl. split; [discriminate|reflexivity].
  - destruct (IH Hplain) as [Hne Herr].
    pose proof (plain_chain_not_nil cause Hplain) as Hnil. rewrite Hnil.
    split; [|apply wrapper_messages; assumption].
    intros E. apply app_eq_nil in E. destruct E. congruence.
  - destruct (IH Hplain) as [Hne Herr].
    pose proof (plain_chain_not_nil cause Hplain) as Hnil. rewrite Hnil.
    split; [|apply wrapper_messages; assumption].
    intros E. apply app_eq_nil in E. destruct E. congruence.
  - exact (IH Hplain).
  - destruct c; [discriminate|]. destruct u; [discriminate|].
    rewrite (append_line_text [] text Hplain). simpl.
    split; [discriminate|reflexivity].
Qed.

(** X8: on such a chain the last line without stacks is the text of the
    root cause. *)
Theorem Lines_last_is_root_cause (opts : Config) (err : error) :
  plain_chain err = true ->
  exists lines text,
    Lines opts err false = Some lines
    /\ Error (Cause err) = Some text
    /\ last lines "" = text.
Proof.
  intros Hplain. exists (messages err).
  assert (H : messages err <> []
              /\ exists text, Error (Cause err) = Some text
                              /\ last (messages err) "" = text).
  { induction err as [|msg st|cause IH msg st|cause IH msg|cause IH details
                     |text c u]; simpl in *; try discriminate.
    - rewrite (append_line_text [] msg Hplain). simpl.
      split; [discriminate|]. exists msg.
      rewrite Cause_not_causer by reflexivity. split; reflexivity.
    - destruct (IH Hplain) as (Hne & text & Htext & Hlast).
      split; [intros E; apply app_eq_nil in E; destruct E; congruence|].
      exists text. rewrite (Cause_causer (withStack cause msg st) eq_refl).
      split; [exact Htext|]. rewrite last_app_nonempty by exact Hne. exact Hlast.
    - destruct (IH Hplain) as (Hne & text & Htext & Hlast).
      split; [intros E; apply app_eq_nil in E; destruct E; congruence|].
      exists text. rewrite (Cause_causer (withMessage cause msg) eq_refl).
      split; [exact Htext|]. rewrite last_app_nonempty by exact Hne. exact Hlast.
    - destruct (IH Hplain) as (Hne & text & Htext & Hlast).
      split; [exact Hne|].
      exists text. rewrite (Cause_causer (withDetails cause details) eq_refl).
      split; assumption.
    - destruct c; [discriminate|]. destruct u; [discriminate|].
      rewrite (append_line_text [] text Hplain). simpl.
      split; [discriminate|]. exists text.
      rewrite Cause_not_causer by reflexivity. split; reflexivity. }
  destruct H as (_ & text & Htext & Hlast).
  exists text. split; [apply Lines_no_stack|]. split; assumption.
Qed.

(** X9: [Wrap] is [WithStack] after [WithMessage] as far as the short
    text, the root cause and the lines without stacks go. *)
Theorem Wrap_is_WithStack_WithMessage (opts : Config) (e : errorsApi)
  (pcs pcs' : callstack) (err : error) (message : string) :
  Error (Wrap e pcs err message)
  = Error (WithStack e pcs' (WithMessage e err message))
  /\ Cause (Wrap e pcs err message)
     = Cause (WithStack e pcs' (WithMessage e err message))
  /\ Lines opts (Wrap e pcs err message) false
     = Lines opts (WithStack e pcs' (WithMessage e err message)) false.
Proof.
  rewrite !Lines_no_stack.
  unfold Wrap, WithStack, WithMessage.
  destruct (is_nil err) eqn:Hnil; [repeat split|].
  simpl. rewrite Hnil. split; [reflexivity|]. split; [|reflexivity].
  rewrite (Cause_causer (withStack err message _) eq_refl).
  rewrite (Cause_causer (withStack (withMessage err message) "" _) eq_refl).
  rewrite (Cause_causer (withMessage err message) eq_refl). reflexivity.
Qed.

(** ** Further properties of [Format] *)

(** X10: the extended form [%+v] returns on every node of this package,
    also on a node with a nil cause, on which [Error()] and so [%s]
    panic. *)
Theorem Format_extended_returns (opts : Config) (err : error) :
  is_node err = true ->
  exists out, Format opts err true verb_v = Some out.
Proof.
  induction err as [|msg st|cause IH msg st|cause IH msg|cause IH details
                   |text c u]; simpl; intros Hnode; try discriminate.
  - eauto.
  - destruct cause; simpl in *; eauto;
      destruct (IH eq_refl) as [out Hout]; simpl in Hout; rewrite Hout;
      simpl; eauto.
  - destruct cause; simpl in *; eauto;
      destruct (IH eq_refl) as [out Hout]; simpl in Hout; rewrite Hout;
      simpl; eauto.
  - destruct cause; simpl in *; eauto;
      destruct (IH eq_refl) as [out Hout]; simpl in Hout; rewrite Hout;
      simpl; eauto.
Qed.

(** ** [Cause], [Unwrap] and the constructors *)

(** X15: on a node of this package the methods [Cause] and [Unwrap]
    return the same value, and the package-level [Unwrap] of a terminal
    node is nil. *)
Theorem Cause_method_is_Unwrap (err : error) :
  is_node err = true ->
  match as_causer err with
  | Some cause => Unwrap err = cause
  | None => Unwrap err = nil_error
  end.
Proof.
  destruct err; simpl; intros H; try discriminate; reflexivity.
Qed.

(** X16: [Unwrap] undoes one wrapping: of what a constructor of the wrap
    family returns it gives the argument back, nil for nil. *)
Theorem Unwrap_wrap (e : errorsApi) (pcs : callstack) (err : error)
  (message format : string) (args details : list any) :
  Unwrap (WithStack e pcs err) = err
  /\ Unwrap (Wrap e pcs err message) = err
  /\ Unwrap (Wrapf e pcs err format args) = err
  /\ Unwrap (WithMessage e err message) = err
  /\ Unwrap (WithMessagef e err format args) = err
  /\ Unwrap (WithDetails e err details) = err.
Proof.
  unfold WithStack, Wrap, Wrapf, WithMessage, WithMessagef, WithDetails.
  destruct (is_nil err) eqn:Hnil.
  - apply is_nil_true in Hnil. subst err. repeat split.
  - repeat split.
Qed.

End Errors.

(** ** A small host, to run the definitions on examples

    Detail values and format arguments are strings, a captured stack is
    the list of the names of its frames, [callers] drops the [skip]
    innermost frames, and the formats of the examples have no verb and no
    argument, for which [fmt.Sprintf] returns the format itself. *)

Definition example_callers (pcs : list string) (skip : Z) : list string :=
  skipn (Z.to_nat skip) pcs.

Definition example_stack_Format (opts : Config) (st : list string)
  (plus : bool) (verb : rune) : string :=
  if (verb =? verb_v)%Z && plus then String.concat (StackSep opts) st else "".

Definition example_Sprintf (format : string) (args : list string) : string :=
  format.

Definition double_quote : string := String (ascii_of_nat 34) EmptyString.

Definition example_Quote (s : string) : string :=
  double_quote ++ s ++ double_quote.

Definition example_pcs : list string :=
  ["errors.callers"; "errors.New"; "main.run"; "main.main"].

Definition example_error : Type := error string (list string).

Definition example_New (message : string) : example_error :=
  New string example_callers globalErrorsApi example_pcs message.

Definition example_Wrap (err : example_error) (message : string)
  : example_error :=
  Wrap example_callers globalErrorsApi example_pcs err message.

Definition example_Format (err : example_error) (plus : bool) (verb : rune)
  : option string :=
  Format example_stack_Format example_Sprintf example_Quote globalOptions
    err plus verb.

(** [io.EOF], an error of another package without [Cause] and [Unwrap]. *)
Definition EOF : example_error := external "EOF" None None.

(** The verb [d]. *)
Definition verb_d : rune := Eval cbv in rune_of "d".

Definition example_details_chain : example_error :=
  WithDetails globalErrorsApi (example_Wrap EOF "read error") ["whoops"].

Definition example_Lines (err : example_error) (with_stack : bool)
  : option (list string) :=
  Lines example_stack_Format globalOptions err with_stack.

(** An error of another package with its own text, as [codeError] in
    lines_test.go. *)
Definition codeError_1_foo : example_error :=
  external "code error: 1, foo" None None.

(** *** Instances of the theorems *)

Lemma Wrap_short_text_witness :
  is_nil (example_New "foo") = false
  /\ Error (example_New "foo") = Some "foo"
  /\ Error (example_Wrap (example_New "foo") "bar") = Some "bar: foo".
Proof.
  split; [reflexivity|]. split; [reflexivity|].
  apply (@Wrap_short_text string (list string) (list string) example_callers
           globalErrorsApi example_pcs (example_New "foo") "bar" "foo");
    [reflexivity | reflexivity | discriminate | discriminate].
Defined.

Lemma short_text_join_witness :
  Error (withMessage EOF "") = Some "EOF"
  /\ Error (withMessage EOF "read error") = Some "read error: EOF".
Proof.
  destruct (@short_text_join string (list string) EOF "read error" "EOF"
              [] []) as (_ & _ & _ & _ & H).
  destruct (H eq_refl eq_refl) as (H1 & _ & H2).
  split; [exact H1|].
  destruct H2 as [H2 _]; [discriminate|]. exact H2.
Defined.

Lemma Details_only_outermost_witness :
  is_withDetails (example_Wrap (withDetails EOF ["whoops"]) "read error") = false
  /\ Details globalErrorsApi
       (example_Wrap (withDetails EOF ["whoops"]) "read error")
     = ([], false).
Proof.
  split; [reflexivity|].
  destruct (@Details_only_outermost string (list string) (list string)
              example_callers globalErrorsApi example_pcs
              (example_Wrap (withDetails EOF ["whoops"]) "read error")
              EOF ["whoops"] "read error") as (_ & _ & H & _).
  apply H. reflexivity.
Defined.

Lemma Format_other_verb_writes_nothing_witness :
  is_node (example_Wrap EOF "read error") = true
  /\ example_Format (example_Wrap EOF "read error") false verb_d = Some "".
Proof.
  split; [reflexivity|].
  apply (@Format_other_verb_writes_nothing string (list string)
           example_stack_Format example_Sprintf example_Quote globalOptions
           (example_Wrap EOF "read error") false verb_d);
    [reflexivity | discriminate | discriminate | discriminate].
Defined.

Lemma constructed_never_nil_cause_witness :
  constructed example_callers example_Sprintf example_details_chain
  /\ causes_present example_details_chain = true
  /\ (exists text, Error example_details_chain = Some text)
  /\ is_nil (example_Wrap EOF "read error") = false.
Proof.
  assert (H : constructed example_callers example_Sprintf
                example_details_chain).
  { apply constructed_WithDetails. apply constructed_Wrap.
    apply constructed_external. }
  split; [exact H|].
  destruct (constructed_never_nil_cause H) as (Hp & He & Hd).
  split; [exact Hp|]. split; [apply He; reflexivity|].
  apply (Hd (example_Wrap EOF "read error") ["whoops"] eq_refl).
Defined.

(** *** Inputs on which the properties as first stated fail *)

(** C6, as first stated: with an empty short text of the cause the
    joiner is not left out. *)
Lemma short_text_dangling_joiner :
  Error (example_New "") = Some ""
  /\ Error (example_Wrap (example_New "") "m") = Some "m: "
  /\ Error (example_Wrap (example_New "") "m") <> Some "m".
Proof.
  split; [reflexivity|]. split; [reflexivity|]. discriminate.
Qed.

(** C8, as first stated: under the verb [d] nothing is written, not the
    short text. *)
Lemma Format_other_verb_not_short_text :
  example_Format (example_New "foo") false verb_d = Some ""
  /\ Error (example_New "foo") = Some "foo"
  /\ example_Format (example_New "foo") false verb_d
     <> Error (example_New "foo").
Proof.
  split; [reflexivity|]. split; [reflexivity|]. discriminate.
Qed.

(** *** The cases of the tests that need no stack and no format verb *)

Example TestLinesNoStack_nil : example_Lines (nil_error _ _) false = Some [].
Proof. reflexivity. Qed.

Example TestLinesNoStack_New :
  example_Lines (example_New "foo") false = Some ["foo"].
Proof. reflexivity. Qed.

Example TestLinesNoStack_Wrap :
  example_Lines (example_Wrap (example_New "foo") "bar") false
  = Some ["bar"; "foo"].
Proof. reflexivity. Qed.

Example TestLinesNoStack_WithStack :
  example_Lines
    (WithStack example_callers globalErrorsApi example_pcs (example_New "foo"))
    false
  = Some ["foo"].
Proof. reflexivity. Qed.

Example TestLinesNoStack_codeError :
  example_Lines (example_Wrap codeError_1_foo "bar") false
  = Some ["bar"; "code error: 1, foo"].
Proof. reflexivity. Qed.

Example TestFormatWrap_s :
  example_Format (example_Wrap (example_New "error") "error2") false verb_s
  = Some "error2: error".
Proof. reflexivity. Qed.

Example TestFormatWrap_q :
  example_Format (example_Wrap (example_New "error") "error2") false verb_q
  = Some (double_quote ++ "error2: error" ++ double_quote).
Proof. reflexivity. Qed.

(** The same verb on a message node: no quotation marks. *)
Example Format_q_WithMessage :
  example_Format (WithMessage globalErrorsApi (example_New "error") "error2")
    false verb_q
  = Some "error2: error".
Proof. reflexivity. Qed.

Example TestFormatWithDetails_s :
  example_Format
    (WithDetails globalErrorsApi (example_Wrap EOF "read error") ["whoops"])
    false verb_s
  = Some "read error: EOF".
Proof. reflexivity. Qed.

Example TestFormatWithDetails_plus_v :
  example_Format (WithDetails globalErrorsApi EOF ["whoops"]) true verb_v
  = Some ("EOF" ++ newline).
Proof. reflexivity. Qed.

(** ** Rendering and the configuration *)

(** X11: without stacks [Lines] does not read the configuration and
    renders no stack: two configurations and two renderings of stacks
    give the same lines. *)
Theorem Lines_without_stack_ignores_config (any stack : Type)
  (stack_Format stack_Format' : Config -> stack -> bool -> rune -> string)
  (opts opts' : Config) (err : error any stack) :
  Lines stack_Format opts err false = Lines stack_Format' opts' err false.
Proof.
  rewrite !Lines_no_stack. reflexivity.
Qed.

(** X12: the configuration reaches the extended form only.  With a verb
    other than [v], or without the flag [+], [Format] writes the same
    under every configuration, rendering of stacks and [fmt.Sprintf], and
    the flag makes no difference. *)
Theorem Format_short_ignores_config (any stack : Type)
  (stack_Format stack_Format' : Config -> stack -> bool -> rune -> string)
  (Sprintf Sprintf' : string -> list any -> string) (Quote : string -> string)
  (opts opts' : Config) (err : error any stack) (plus : bool) (verb : rune) :
  plus = false \/ verb <> verb_v ->
  Format stack_Format Sprintf Quote opts err plus verb
  = Format stack_Format' Sprintf' Quote opts' err false verb.
Proof.
  intros H.
  assert (E : ((verb =? verb_v)%Z && plus) = false).
  { destruct H as [-> | H]; [apply andb_false_r|].
    apply Z.eqb_neq in H. rewrite H. reflexivity. }
  destruct err; simpl; rewrite ?E, ?andb_false_r; reflexivity.
Qed.

(** ** options.go *)

(** X13: two calls of [SetOptions] in a row are one call with the options
    of the first followed by those of the second. *)
Theorem SetOptions_app (current : Config) (options options' : list Option) :
  SetOptions (SetOptions current options) options'
  = SetOptions current (options ++ options').
Proof.
  unfold SetOptions. symmetry. apply fold_left_app.
Qed.

(** X14: an option sets its own separator and keeps the two others, so
    the three of them, in any order and from any configuration, give the
    configuration of the three separators, and of two options for one
    separator the later one counts. *)
Theorem SetOptions_separators (current : Config) (f s m m' : string) :
  let all := {| FuncSep := f; StackSep := s; MsgSep := m |} in
  SetOptions current [WithFuncSep f; WithStackSep s; WithMsgSep m] = all
  /\ SetOptions current [WithFuncSep f; WithMsgSep m; WithStackSep s] = all
  /\ SetOptions current [WithStackSep s; WithFuncSep f; WithMsgSep m] = all
  /\ SetOptions current [WithStackSep s; WithMsgSep m; WithFuncSep f] = all
  /\ SetOptions current [WithMsgSep m; WithFuncSep f; WithStackSep s] = all
  /\ SetOptions current [WithMsgSep m; WithStackSep s; WithFuncSep f] = all
  /\ SetOptions current [WithMsgSep m'; WithMsgSep m]
     = SetOptions current [WithMsgSep m]
  /\ SetOptions globalOptions [WithMsgSep m]
     = {| FuncSep := tab; StackSep := newline; MsgSep := m |}.
Proof.
  repeat split.
Qed.

(** *** Instances of the further theorems *)

Lemma Format_short_text_witness :
  is_node (example_Wrap EOF "read error") = true
  /\ example_Format (example_Wrap EOF "read error") true verb_s
     = Some "read error: EOF"
  /\ example_Format (example_Wrap EOF "read error") false verb_v
     = Some "read error: EOF".
Proof.
  split; [reflexivity|].
  exact (@Format_short_text string (list string) example_stack_Format
           example_Sprintf example_Quote globalOptions
           (example_Wrap EOF "read error") true eq_refl).
Defined.

Lemma Lines_outermost_first_witness :
  is_nil (example_Wrap EOF "read error") = false
  /\ exists line rest,
       line_of example_stack_Format globalOptions
         (example_Wrap EOF "read error") true = Some line
       /\ Lines example_stack_Format globalOptions
            (Unwrap (example_Wrap EOF "read error")) true = Some rest
       /\ Lines example_stack_Format globalOptions
            (example_Wrap EOF "read error") true
          = Some (append_line [] line ++ rest)%list.
Proof.
  split; [reflexivity|].
  exact (@Lines_outermost_first string (list string) example_stack_Format
           globalOptions (example_Wrap EOF "read error") true eq_refl).
Defined.

Lemma short_text_joins_lines_witness :
  plain_chain example_details_chain = true
  /\ exists lines,
       Lines example_stack_Format globalOptions example_details_chain false
       = Some lines
       /\ lines <> []
       /\ Error example_details_chain = Some (String.concat ": " lines).
Proof.
  split; [reflexivity|].
  exact (@short_text_joins_lines string (list string) example_stack_Format
           globalOptions example_details_chain eq_refl).
Defined.

Lemma Lines_last_is_root_cause_witness :
  plain_chain example_details_chain = true
  /\ exists lines text,
       Lines example_stack_Format globalOptions example_details_chain false
       = Some lines
       /\ Error (Cause example_details_chain) = Some text
       /\ last lines "" = text.
Proof.
  split; [reflexivity|].
  exact (@Lines_last_is_root_cause string (list string) example_stack_Format
           globalOptions example_details_chain eq_refl).
Defined.

(** A details node with a nil cause, which no constructor builds. *)
Definition example_details_nil : example_error := withDetails (nil_error _ _) [].

Lemma Format_extended_returns_witness :
  is_node example_details_nil = true
  /\ exists out, example_Format example_details_nil true verb_v = Some out.
Proof.
  split; [reflexivity|].
  exact (@Format_extended_returns string (list string) example_stack_Format
           example_Sprintf example_Quote globalOptions example_details_nil
           eq_refl).
Defined.

Lemma Format_short_ignores_config_witness :
  verb_q <> verb_v
  /\ example_Format (example_Wrap EOF "read error") true verb_q
     = Format example_stack_Format example_Sprintf example_Quote
         (SetOptions globalOptions [WithMsgSep " | "; WithStackSep "; "])
         (example_Wrap EOF "read error") false verb_q.
Proof.
  split; [discriminate|].
  apply Format_short_ignores_config. right. discriminate.
Defined.

Example Format_extended_details_nil :
  example_Format example_details_nil true verb_v = Some ("<nil>" ++ newline)
  /\ example_Format example_details_nil false verb_s = None
  /\ example_Lines example_details_nil true = Some [].
Proof. repeat split. Qed.

Example Lines_details_chain :
  example_Lines example_details_chain false = Some ["read error"; "EOF"]
  /\ Error example_details_chain = Some "read error: EOF"
  /\ Cause example_details_chain = EOF.
Proof. repeat split. Qed.

Lemma Cause_method_is_Unwrap_witness :
  is_node (example_Wrap EOF "read error") = true
  /\ Unwrap (example_Wrap EOF "read error") = EOF.
Proof.
  split; [reflexivity|].
  exact (@Cause_method_is_Unwrap string (list string)
           (example_Wrap EOF "read error") eq_refl).
Defined.

(** An error of another package with a chain behind [Cause()] and no
    [Unwrap()]: [Lines] visits the value alone. *)
Example Lines_external_causer :
  let err : example_error :=
    external "x" (Some (external "y" (Some (external "z" None None)) None))
      None in
  example_Lines err true = Some ["x"]
  /\ chain_length err = 1
  /\ Cause err = external "z" None None.
Proof. repeat split. Qed.

(** On an error of another package a constructor builds a node around
    it; it does not hand the error back. *)
Example Wrapf_external_is_node :
  is_node EOF = false
  /\ is_node (Wrapf example_callers example_Sprintf globalErrorsApi
                example_pcs EOF "read error" []) = true
  /\ is_node (WithDetails globalErrorsApi EOF ["whoops"]) = true.
Proof. repeat split. Qed.
